(** * Endless scrolling: the pagination controller of the [Posts] component

    A shallow embedding of the [Posts] React component (the list with
    pull-to-refresh and endless scrolling) and the properties of its
    page-fetch / state-merge logic.

    What is modelled, and how:
    - the component state [{ pagination, posts, ds }] is a record; the
      [pagination] field is a JavaScript object used as a dictionary, so it
      is a finite map from property names to JavaScript values, and the
      object spread [{ ...o, loading: b }] is a map insert;
    - the JavaScript values that occur in a pagination object are
      [undefined], booleans and numbers; numbers are the integers together
      with [NaN] (the only non-integer the controller's arithmetic can
      produce from integer fields), and integer arithmetic is exact, as it
      is on doubles while the results stay below 2^53; the theorems about
      [_onEndReached] at arbitrary pagination fields (the outcome of the
      last-page test, the page asked for) carry this bound as a hypothesis,
      [lastPage_exact];
    - [this.setState] replaces the three state fields at once and hands the
      new data source to the list view; both are recorded: the state is
      threaded through a state monad and the hand-over is an entry of the
      effect log. No method reads [this.state] after its own [setState], so
      applying the update at the call or at the end of the handler gives
      the same states;
    - [API.getPosts(page)] is the external fetch collaborator: the call is an
      entry of the effect log, and the promise it returns is settled later
      by the environment, either fulfilled with a typed page result or
      rejected with an error;
    - the environment drives the component through events (mount, the two
      gestures, the settlement of a promise); a session is a run in which
      an API, a function from the page asked to the settled promise,
      answers every fetch before the next gesture;
    - [_renderRow] and [LoadingIndicator] build elements, a small tree type
      with the style sheet entries as names. *)

From stdpp Require Import gmap strings list fin_maps pretty.

Local Open Scope Z_scope.

(** ** JavaScript values *)

Module JS.

(** Numbers: the integers and [NaN]. *)
Inductive number : Type :=
| NaN
| Int (z : Z).

Inductive value : Type :=
| JUndefined
| JBoolean (b : bool)
| JNumber (n : number).

#[global] Instance number_eq_dec : EqDecision number.
Proof. solve_decision. Defined.

#[global] Instance value_eq_dec : EqDecision value.
Proof. solve_decision. Defined.

(** [ToNumber] and [ToBoolean] of the language specification, on the
    values above. *)
Definition ToNumber (v : value) : number :=
  match v with
  | JUndefined => NaN
  | JBoolean true => Int 1
  | JBoolean false => Int 0
  | JNumber n => n
  end.

Definition ToBoolean (v : value) : bool :=
  match v with
  | JUndefined => false
  | JBoolean b => b
  | JNumber NaN => false
  | JNumber (Int z) => negb (z =? 0)
  end.

Definition lift2 (f : Z -> Z -> Z) (a b : number) : number :=
  match a, b with
  | Int x, Int y => Int (f x y)
  | _, _ => NaN
  end.

(** [a + b], [a - b] and [a * b]: with no string or object operand the
    three are numeric, and [NaN] is absorbing. The integer result is exact;
    it is the one double precision arithmetic computes when the operands
    and the result are safe integers. *)
Definition add (a b : value) : value :=
  JNumber (lift2 Z.add (ToNumber a) (ToNumber b)).
Definition sub (a b : value) : value :=
  JNumber (lift2 Z.sub (ToNumber a) (ToNumber b)).
Definition mul (a b : value) : value :=
  JNumber (lift2 Z.mul (ToNumber a) (ToNumber b)).

(** [a <= b]: false as soon as an operand converts to [NaN]. *)
Definition le (a b : value) : bool :=
  match ToNumber a, ToNumber b with
  | Int x, Int y => x <=? y
  | _, _ => false
  end.

(** [a === b]: same type and same value, and [NaN] differs from itself. *)
Definition strict_eq (a b : value) : bool :=
  match a, b with
  | JUndefined, JUndefined => true
  | JBoolean x, JBoolean y => Bool.eqb x y
  | JNumber (Int x), JNumber (Int y) => x =? y
  | _, _ => false
  end.

(** [!a] *)
Definition not (a : value) : bool := negb (ToBoolean a).

(** An object used as a dictionary, and the property read [o.k], which is
    [undefined] for an absent property. *)
Definition get (k : string) (o : gmap string value) : value :=
  default JUndefined (o !! k).

End JS.

Import JS.

Coercion JNumber : number >-> value.
Coercion Int : Z >-> number.

(** ** Data model *)

(** A post as the API delivers it. *)
Record post : Type := Post {
  title : string;
  description : string
}.

(** The rows of the list view: a post, or the synthetic row
    [{ type: 'Loading', loading: ... }]. *)
Inductive row : Type :=
| PostRow (p : post)
| Loading (loading : value).

(** [ListView.DataSource]: only its rows matter here. *)
Definition DataSource : Type := list row.

Definition cloneWithRows (ds : DataSource) (rows : list row) : DataSource :=
  rows.

(** The payload of a fulfilled [API.getPosts] promise. *)
Record result : Type := Result {
  result_pagination : gmap string value;
  records : list post
}.

(** The value a promise is rejected with. *)
Definition error : Type := string.

(** [this.state] *)
Record state : Type := State {
  pagination : gmap string value;
  posts : list post;
  ds : DataSource
}.

(** The state set up by the constructor. *)
Definition constructor : state :=
  {| pagination := ∅; posts := []; ds := [] |}.

(** ** Effects *)

(** What the component does to its environment. *)
Inductive effect : Type :=
| SetState (rows : DataSource)      (* [this.setState]: the list view gets new rows *)
| ApiGetPosts (page : value)        (* [API.getPosts(page)] *)
| ConsoleError (e : error).         (* [console.error(e)] *)

(** A method of the component: reads and writes [this.state] and appends to
    the effect log. *)
Definition M (A : Type) : Type := state -> A * state * list effect.

Definition ret {A} (a : A) : M A := fun s => (a, s, []).

Definition bind {A B} (m : M A) (k : A -> M B) : M B :=
  fun s =>
    let '(a, s1, l1) := m s in
    let '(b, s2, l2) := k a s1 in
    (b, s2, l1 ++ l2).

Definition this_state : M state := fun s => (s, s, []).

Definition emit (e : effect) : M unit := fun s => (tt, s, [e]).

Declare Scope method_scope.
Delimit Scope method_scope with method.
Notation "x <- m ;; k" := (bind m (fun x => k))
  (at level 100, m at next level, right associativity) : method_scope.
Notation "m ;; k" := (bind m (fun _ => k))
  (at level 100, right associativity) : method_scope.
Local Open Scope method_scope.

(** [this.setState({ pagination, posts, ds })] *)
Definition setState (s' : state) : M unit :=
  fun _ => (tt, s', [SetState (ds s')]).

Definition result_of {A} (r : A * state * list effect) : A := r.1.1.
Definition state_of {A} (r : A * state * list effect) : state := r.1.2.
Definition log_of {A} (r : A * state * list effect) : list effect := r.2.

(** The pages asked of the fetch collaborator, in order. *)
Fixpoint fetches (l : list effect) : list value :=
  match l with
  | [] => []
  | ApiGetPosts page :: l' => page :: fetches l'
  | _ :: l' => fetches l'
  end.

(** The row lists handed to the list view, in order. *)
Fixpoint renders (l : list effect) : list DataSource :=
  match l with
  | [] => []
  | SetState rows :: l' => rows :: renders l'
  | _ :: l' => renders l'
  end.

(** ** The methods of [Posts] *)

(** [[ ...posts, loading ]] *)
Definition rows_of (posts : list post) (loading : row) : list row :=
  map PostRow posts ++ [loading].

Definition _update (pagination : gmap string value) (posts : list post) : M value :=
  let loading := Loading (get "loading" pagination) in
  s <- this_state ;;
  setState {| pagination := pagination;
              posts := posts;
              ds := cloneWithRows (ds s) (rows_of posts loading) |} ;;
  ret JUndefined.

Definition _getPostsRequest : M value :=
  s <- this_state ;;
  let pagination := <["loading" := JBoolean true]> (pagination s) in
  _update pagination (posts s).

Definition _getPostsSuccess (result : result) : M value :=
  s <- this_state ;;
  let pagination := <["loading" := JBoolean false]> (result_pagination result) in
  let posts :=
    if strict_eq (get "page" pagination) 1
    then records result
    else posts s ++ records result in
  _update pagination posts.

Definition _getPostsFailure (error : error) : M value :=
  s <- this_state ;;
  let pagination := <["loading" := JBoolean false]> (pagination s) in
  _update pagination (posts s) ;;
  emit (ConsoleError error) ;;
  ret JUndefined.

(** Promises, once settled. *)
Inductive promise (A : Type) : Type :=
| Fulfilled (a : A)
| Rejected (e : error).
Arguments Fulfilled {A} a.
Arguments Rejected {A} e.

(** [p.then(f)] and [p.catch(g)] for handlers that return normally: the
    handler runs on the matching outcome and its return value fulfils the
    derived promise; the other outcome is passed on. *)
Definition promise_then {A B} (f : A -> M B) (p : promise A) : M (promise B) :=
  match p with
  | Fulfilled a => b <- f a ;; ret (Fulfilled b)
  | Rejected e => ret (Rejected e)
  end.

Definition promise_catch {A} (g : error -> M A) (p : promise A) : M (promise A) :=
  match p with
  | Fulfilled a => ret (Fulfilled a)
  | Rejected e => a <- g e ;; ret (Fulfilled a)
  end.

(** [_getPosts(page)] up to its return: the request is announced and the
    fetch collaborator is called; the method returns [undefined]. *)
Definition _getPosts (page : value) : M value :=
  _getPostsRequest ;;
  emit (ApiGetPosts page) ;;
  ret JUndefined.

(** The handlers [_getPosts] chained on the promise, run when the
    environment settles it:
    [.then(result => this._getPostsSuccess(result))
     .catch(error => this._getPostsFailure(error))]. *)
Definition _getPosts_settled (p : promise result) : M (promise value) :=
  p' <- promise_then _getPostsSuccess p ;;
  promise_catch _getPostsFailure p'.

Definition componentWillMount : M value :=
  _getPosts 1.

Definition _onRefresh : M value :=
  _getPosts 1.

(** [totalCount <= (page - 1) * perPage + pageCount] *)
Definition lastPage (pagination : gmap string value) : bool :=
  let page := get "page" pagination in
  let perPage := get "perPage" pagination in
  let pageCount := get "pageCount" pagination in
  let totalCount := get "totalCount" pagination in
  le totalCount (add (mul (sub page 1) perPage) pageCount).

Definition _onEndReached : M value :=
  s <- this_state ;;
  let pagination := pagination s in
  let page := get "page" pagination in
  if JS.not (get "loading" pagination) && negb (lastPage pagination)
  then _getPosts (add page 1) ;; ret JUndefined
  else ret JUndefined.

(** ** The component driven by its environment *)

(** What the environment does to the component: it mounts it, delivers the
    two gestures of the list view, and settles a promise returned by
    [API.getPosts]. *)
Inductive event : Type :=
| Mount
| Refresh
| EndReached
| Settled (p : promise result).

Definition handle (ev : event) : M unit :=
  match ev with
  | Mount => componentWillMount ;; ret tt
  | Refresh => _onRefresh ;; ret tt
  | EndReached => _onEndReached ;; ret tt
  | Settled p => _getPosts_settled p ;; ret tt
  end.

Fixpoint run (evs : list event) : M unit :=
  match evs with
  | [] => ret tt
  | ev :: evs' => handle ev ;; run evs'
  end.

(** The pagination object of a page of the API payload. *)
Definition page_info (page perPage pageCount totalCount : Z) : gmap string value :=
  <["page" := JNumber page]>
  (<["perPage" := JNumber perPage]>
  (<["pageCount" := JNumber pageCount]>
  (<["totalCount" := JNumber totalCount]> ∅))).

(** [n] posts numbered from [from]. *)
Definition some_posts (from : nat) (n : nat) : list post :=
  map (fun i => Post ("Title " +:+ pretty i) ("Description " +:+ pretty i))
      (seq from n).

(** The number of loading rows of a row list. *)
Definition is_Loading (r : row) : bool :=
  match r with
  | Loading _ => true
  | PostRow _ => false
  end.

Definition loading_markers (rows : list row) : nat :=
  length (filter (fun r => is_Loading r = true) rows).

(** * Properties *)

(** ** Reading a pagination object *)

Lemma get_insert_eq (k : string) (v : value) (o : gmap string value) :
  get k (<[k := v]> o) = v.
Proof. unfold get. by rewrite lookup_insert_eq. Qed.

Lemma get_insert_ne (k k' : string) (v : value) (o : gmap string value) :
  k ≠ k' -> get k' (<[k := v]> o) = get k' o.
Proof. intros Hne. unfold get. by rewrite lookup_insert_ne. Qed.

Lemma get_empty (k : string) : get k ∅ = JUndefined.
Proof. unfold get. by rewrite lookup_empty. Qed.

(** On integer fields the last-page test is the integer comparison. *)
Lemma lastPage_Int (o : gmap string value) (page perPage pageCount totalCount : Z) :
  get "page" o = JNumber page ->
  get "perPage" o = JNumber perPage ->
  get "pageCount" o = JNumber pageCount ->
  get "totalCount" o = JNumber totalCount ->
  lastPage o = (totalCount <=? (page - 1) * perPage + pageCount).
Proof.
  intros Hp Hpp Hpc Htc. unfold lastPage. rewrite Hp, Hpp, Hpc, Htc. reflexivity.
Qed.

(** ** The equations of the methods *)

Lemma _update_eq (p : gmap string value) (ps : list post) (s : state) :
  _update p ps s =
  (JUndefined,
   {| pagination := p; posts := ps;
      ds := map PostRow ps ++ [Loading (get "loading" p)] |},
   [SetState (map PostRow ps ++ [Loading (get "loading" p)])]).
Proof. reflexivity. Qed.

Lemma _getPostsRequest_eq (s : state) :
  _getPostsRequest s =
  (JUndefined,
   {| pagination := <["loading" := JBoolean true]> (pagination s);
      posts := posts s;
      ds := map PostRow (posts s) ++ [Loading (JBoolean true)] |},
   [SetState (map PostRow (posts s) ++ [Loading (JBoolean true)])]).
Proof.
  unfold _getPostsRequest, bind, this_state. rewrite _update_eq.
  by rewrite get_insert_eq.
Qed.

Lemma _getPosts_eq (page : value) (s : state) :
  _getPosts page s =
  (JUndefined,
   {| pagination := <["loading" := JBoolean true]> (pagination s);
      posts := posts s;
      ds := map PostRow (posts s) ++ [Loading (JBoolean true)] |},
   [SetState (map PostRow (posts s) ++ [Loading (JBoolean true)]);
    ApiGetPosts page]).
Proof.
  unfold _getPosts, bind. rewrite _getPostsRequest_eq. reflexivity.
Qed.

Lemma _getPostsSuccess_eq (r : result) (s : state) :
  let ps := if strict_eq (get "page" (result_pagination r)) 1
            then records r else posts s ++ records r in
  _getPostsSuccess r s =
  (JUndefined,
   {| pagination := <["loading" := JBoolean false]> (result_pagination r);
      posts := ps;
      ds := map PostRow ps ++ [Loading (JBoolean false)] |},
   [SetState (map PostRow ps ++ [Loading (JBoolean false)])]).
Proof.
  unfold _getPostsSuccess, bind, this_state. rewrite _update_eq.
  rewrite get_insert_eq, get_insert_ne by done. reflexivity.
Qed.

Lemma _getPostsFailure_eq (e : error) (s : state) :
  _getPostsFailure e s =
  (JUndefined,
   {| pagination := <["loading" := JBoolean false]> (pagination s);
      posts := posts s;
      ds := map PostRow (posts s) ++ [Loading (JBoolean false)] |},
   [SetState (map PostRow (posts s) ++ [Loading (JBoolean false)]);
    ConsoleError e]).
Proof.
  unfold _getPostsFailure, bind, this_state. rewrite _update_eq.
  by rewrite get_insert_eq.
Qed.

Lemma _getPosts_settled_Fulfilled (r : result) (s : state) :
  _getPosts_settled (Fulfilled r) s =
  (Fulfilled JUndefined, state_of (_getPostsSuccess r s), log_of (_getPostsSuccess r s)).
Proof.
  unfold _getPosts_settled, promise_then, promise_catch, bind, ret.
  rewrite _getPostsSuccess_eq. cbn. by rewrite ?app_nil_r.
Qed.

Lemma _getPosts_settled_Rejected (e : error) (s : state) :
  _getPosts_settled (Rejected e) s =
  (Fulfilled JUndefined, state_of (_getPostsFailure e s), log_of (_getPostsFailure e s)).
Proof.
  unfold _getPosts_settled, promise_then, promise_catch, bind, ret.
  rewrite _getPostsFailure_eq. reflexivity.
Qed.

Lemma _onEndReached_skip (s : state) :
  JS.not (get "loading" (pagination s)) && negb (lastPage (pagination s)) = false ->
  _onEndReached s = (JUndefined, s, []).
Proof.
  intros H. unfold _onEndReached, bind, this_state. rewrite H. reflexivity.
Qed.

Lemma _onEndReached_fetch (s : state) :
  JS.not (get "loading" (pagination s)) && negb (lastPage (pagination s)) = true ->
  _onEndReached s =
  (JUndefined, state_of (_getPosts (add (get "page" (pagination s)) 1) s),
   log_of (_getPosts (add (get "page" (pagination s)) 1) s)).
Proof.
  intros H. unfold _onEndReached, bind, this_state. rewrite H.
  rewrite _getPosts_eq. reflexivity.
Qed.

Lemma loading_markers_rows (ps : list post) (v : value) :
  loading_markers (map PostRow ps ++ [Loading v]) = 1%nat.
Proof.
  unfold loading_markers. induction ps as [|p ps IH]; [reflexivity|].
  cbn [map app]. rewrite filter_cons_False; [exact IH|]. cbn. discriminate.
Qed.

(** ** Fetch completion *)

(** C1: a fulfilled fetch with payload [{ pagination: P, records: R }]
    replaces the items by [R] when [P.page] is [1] and appends [R] to the
    items accumulated so far, in order and keeping duplicates, when
    [P.page] is larger than [1]; in both cases the stored pagination is [P]
    with [loading] set to [false]. *)
Theorem success_resets_or_appends
    (s : state) (P : gmap string value) (R : list post) (k : Z)
    (Hpage : get "page" P = JNumber k) :
  let s' := state_of (_getPosts_settled (Fulfilled (Result P R)) s) in
  (k = 1 -> posts s' = R) ∧
  (1 < k -> posts s' = posts s ++ R) ∧
  pagination s' = <["loading" := JBoolean false]> P ∧
  get "loading" (pagination s') = JBoolean false ∧
  (∀ f : string, f ≠ "loading" -> pagination s' !! f = P !! f).
Proof.
  intros s'. subst s'. rewrite _getPosts_settled_Fulfilled.
  pose proof (_getPostsSuccess_eq (Result P R) s) as Heq. cbn zeta in Heq.
  rewrite Heq. cbn [state_of fst snd result_pagination records pagination posts].
  rewrite Hpage. repeat split.
  - intros ->. reflexivity.
  - intros Hk. cbn [strict_eq]. destruct (Z.eqb_spec k 1); [lia | reflexivity].
  - apply get_insert_eq.
  - intros f Hf. by rewrite lookup_insert_ne.
Qed.

Lemma success_resets_or_appends_witness :
  let a := Post "a" "first" in
  let b := Post "b" "second" in
  let c := Post "c" "third" in
  let s := {| pagination := page_info 1 2 2 5; posts := [a; b];
              ds := [PostRow a; PostRow b; Loading (JBoolean true)] |} in
  (get "page" (page_info 2 2 2 5) = JNumber 2 ∧
   posts (state_of (_getPosts_settled (Fulfilled (Result (page_info 2 2 2 5) [b; c])) s))
   = [a; b; b; c]) ∧
  (get "page" (page_info 1 2 2 5) = JNumber 1 ∧
   posts (state_of (_getPosts_settled (Fulfilled (Result (page_info 1 2 2 5) [b; c])) s))
   = [b; c]).
Proof.
  intros a b c s. split; (split; [reflexivity|]).
  - apply (success_resets_or_appends s (page_info 2 2 2 5) [b; c] 2 eq_refl). lia.
  - apply (success_resets_or_appends s (page_info 1 2 2 5) [b; c] 1 eq_refl). lia.
Defined.

(** C10: the items after a fulfilled fetch of page [1] are the records of
    the payload, whatever items were accumulated before: two runs from
    states with different items end with the same items. *)
Theorem first_page_items_independent
    (s1 s2 : state) (r : result)
    (Hpage : get "page" (result_pagination r) = JNumber 1) :
  posts (state_of (_getPosts_settled (Fulfilled r) s1)) = records r ∧
  posts (state_of (_getPosts_settled (Fulfilled r) s1))
  = posts (state_of (_getPosts_settled (Fulfilled r) s2)) ∧
  state_of (_getPosts_settled (Fulfilled r) s1)
  = state_of (_getPosts_settled (Fulfilled r) s2).
Proof.
  rewrite !_getPosts_settled_Fulfilled.
  pose proof (_getPostsSuccess_eq r s1) as H1.
  pose proof (_getPostsSuccess_eq r s2) as H2.
  cbn zeta in H1, H2. rewrite H1, H2, Hpage. cbn. done.
Qed.

Lemma first_page_items_independent_witness :
  let a := Post "a" "first" in
  let b := Post "b" "second" in
  let r := Result (page_info 1 10 1 1) [b] in
  let s1 := {| pagination := ∅; posts := []; ds := [] |} in
  let s2 := {| pagination := page_info 3 10 2 22; posts := [a; a; b];
               ds := [Loading (JBoolean true)] |} in
  get "page" (result_pagination r) = JNumber 1 ∧
  posts (state_of (_getPosts_settled (Fulfilled r) s1)) = [b] ∧
  posts (state_of (_getPosts_settled (Fulfilled r) s2)) = [b].
Proof.
  intros a b r s1 s2.
  destruct (first_page_items_independent s1 s2 r eq_refl) as (H1 & H2 & _).
  split; [reflexivity|]. split; [exact H1|]. rewrite <- H2. exact H1.
Defined.

(** C4: when a fetch is rejected with error [e], the items stay as they
    were, [loading] becomes [false] and no other pagination field changes,
    [e] goes to [console.error] and nowhere else, and neither the settled
    promise chain nor the methods that started the fetch report a failure:
    they return [undefined]. *)
Theorem failure_keeps_last_good_state (s : state) (e : error) :
  let r := _getPosts_settled (Rejected e) s in
  posts (state_of r) = posts s ∧
  pagination (state_of r) = <["loading" := JBoolean false]> (pagination s) ∧
  get "loading" (pagination (state_of r)) = JBoolean false ∧
  (∀ f : string, f ≠ "loading" -> pagination (state_of r) !! f = pagination s !! f) ∧
  log_of r = [SetState (map PostRow (posts s) ++ [Loading (JBoolean false)]);
              ConsoleError e] ∧
  fetches (log_of r) = [] ∧
  result_of r = Fulfilled JUndefined ∧
  (∀ n : value,
     let s0 := state_of (_getPosts n s) in
     let r' := _getPosts_settled (Rejected e) s0 in
     result_of (_getPosts n s) = JUndefined ∧
     posts (state_of r') = posts s ∧
     pagination (state_of r') = <["loading" := JBoolean false]> (pagination s)) ∧
  result_of (_onRefresh s) = JUndefined ∧
  result_of (_onEndReached s) = JUndefined.
Proof.
  intros r. subst r. rewrite _getPosts_settled_Rejected, _getPostsFailure_eq.
  cbn [state_of log_of result_of fst snd pagination posts fetches].
  split_and!.
  - reflexivity.
  - reflexivity.
  - apply get_insert_eq.
  - intros f Hf. by rewrite lookup_insert_ne.
  - reflexivity.
  - reflexivity.
  - reflexivity.
  - intros n. cbn zeta.
    rewrite _getPosts_eq, _getPosts_settled_Rejected, _getPostsFailure_eq.
    cbn [state_of result_of fst snd pagination posts].
    split_and!; try reflexivity. apply insert_insert_eq.
  - unfold _onRefresh. rewrite _getPosts_eq. reflexivity.
  - destruct (JS.not (get "loading" (pagination s)) && negb (lastPage (pagination s)))
      eqn:Hc.
    + by rewrite _onEndReached_fetch.
    + by rewrite _onEndReached_skip.
Qed.

Lemma failure_keeps_last_good_state_witness :
  let a := Post "a" "first" in
  let s := {| pagination := <["loading" := JBoolean true]> (page_info 1 10 1 22);
              posts := [a];
              ds := [PostRow a; Loading (JBoolean true)] |} in
  let s' := state_of (_getPosts_settled (Rejected "timeout"%string) s) in
  "page"%string ≠ "loading"%string ∧
  pagination s' !! "page" = Some (JNumber 1) ∧
  posts s' = [a].
Proof.
  intros a s s'.
  destruct (failure_keeps_last_good_state s "timeout"%string) as (Hposts & _ & _ & Hframe & _).
  split; [done|]. split; [|exact Hposts].
  subst s'. rewrite (Hframe "page"%string) by done. reflexivity.
Defined.

(** ** Starting a fetch *)

(** C6: [_getPosts(n)] sets [pagination.loading] to [true] and changes no
    other pagination field and no item, hands the list view the current
    items followed by the loading row before anything else happens, then
    calls [API.getPosts(n)], once. *)
Theorem getPosts_announces_then_fetches (s : state) (n : value) :
  let r := _getPosts n s in
  pagination (state_of r) = <["loading" := JBoolean true]> (pagination s) ∧
  get "loading" (pagination (state_of r)) = JBoolean true ∧
  (∀ f : string, f ≠ "loading" -> pagination (state_of r) !! f = pagination s !! f) ∧
  posts (state_of r) = posts s ∧
  log_of r = [SetState (map PostRow (posts s) ++ [Loading (JBoolean true)]);
              ApiGetPosts n] ∧
  fetches (log_of r) = [n].
Proof.
  intros r. subst r. rewrite _getPosts_eq.
  cbn [state_of log_of fst snd pagination posts fetches].
  split_and!.
  - reflexivity.
  - apply get_insert_eq.
  - intros f Hf. by rewrite lookup_insert_ne.
  - reflexivity.
  - reflexivity.
  - reflexivity.
Qed.

Lemma getPosts_announces_then_fetches_witness :
  let a := Post "a" "first" in
  let s := {| pagination := <["loading" := JBoolean false]> (page_info 1 10 1 22);
              posts := [a];
              ds := [PostRow a; Loading (JBoolean false)] |} in
  let s' := state_of (_getPosts (JNumber 2) s) in
  "totalCount"%string ≠ "loading"%string ∧
  pagination s' !! "totalCount" = Some (JNumber 22) ∧
  get "loading" (pagination s') = JBoolean true.
Proof.
  intros a s s'.
  destruct (getPosts_announces_then_fetches s (JNumber 2)) as (_ & Hl & Hframe & _).
  split; [done|]. split; [|exact Hl].
  subst s'. rewrite (Hframe "totalCount"%string) by done. reflexivity.
Defined.

(** C5: [_onRefresh] is [_getPosts(1)] in every state: the page asked of
    the API is [1] whatever the current page, the items, and the loading
    flag are. *)
Theorem onRefresh_requests_first_page (s : state) :
  _onRefresh s = _getPosts 1 s ∧
  fetches (log_of (_onRefresh s)) = [JNumber 1].
Proof.
  split; [reflexivity|]. unfold _onRefresh. by rewrite _getPosts_eq.
Qed.

(** ** Reaching the end of the list *)

(** [Number.MAX_SAFE_INTEGER], [2^53 - 1]. *)
Definition MAX_SAFE_INTEGER : Z := 9007199254740991.

(** [Number.isSafeInteger], on integers. *)
Definition isSafeInteger (z : Z) : bool :=
  (- MAX_SAFE_INTEGER <=? z) && (z <=? MAX_SAFE_INTEGER).

(** The value converts to [NaN] or to a safe integer. *)
Definition safe (v : value) : bool :=
  match ToNumber v with
  | NaN => true
  | Int z => isSafeInteger z
  end.

(** Every number that enters or leaves an operation of the last-page test
    is [NaN] or a safe integer. Double precision arithmetic computes a sum,
    a difference or a product of safe integers without rounding when the
    exact result is a safe integer, so under this condition [lastPage] is
    the value the source computes on line 102; beyond it the source rounds
    and [lastPage] does not. *)
Definition lastPage_exact (pagination : gmap string value) : bool :=
  let page := get "page" pagination in
  let perPage := get "perPage" pagination in
  let pageCount := get "pageCount" pagination in
  let totalCount := get "totalCount" pagination in
  safe page && safe perPage && safe pageCount && safe totalCount &&
  safe (sub page 1) &&
  safe (mul (sub page 1) perPage) &&
  safe (add (mul (sub page 1) perPage) pageCount).

(** On integer fields the condition bounds the fields and the three
    intermediate results. *)
Lemma lastPage_exact_Int (o : gmap string value) (page perPage pageCount totalCount : Z) :
  get "page" o = JNumber page ->
  get "perPage" o = JNumber perPage ->
  get "pageCount" o = JNumber pageCount ->
  get "totalCount" o = JNumber totalCount ->
  lastPage_exact o =
  isSafeInteger page && isSafeInteger perPage && isSafeInteger pageCount &&
  isSafeInteger totalCount &&
  isSafeInteger (page - 1) &&
  isSafeInteger ((page - 1) * perPage) &&
  isSafeInteger ((page - 1) * perPage + pageCount).
Proof.
  intros Hp Hpp Hpc Htc. unfold lastPage_exact. rewrite Hp, Hpp, Hpc, Htc. reflexivity.
Qed.

(** Paginations on which double precision arithmetic rounds are outside
    the condition: a product above [2^53], a total above [2^53], and a page
    number whose successor is above [2^53]. *)
Lemma rounding_paginations_excluded :
  lastPage_exact (page_info 4 3002399751580331 1 9007199254740994) = false ∧
  lastPage_exact (page_info 2 9007199254740991 4 9007199254740996) = false ∧
  safe (add (get "page" (page_info 9007199254740992 1 1 9007199254740994)) 1) = false.
Proof. split_and!; reflexivity. Qed.

(** C2: when [totalCount <= (page - 1) * perPage + pageCount] holds,
    [_onEndReached] asks for no page and changes nothing, whatever the
    loading flag is. The test is the one the source computes: the fields
    and the intermediate results are within the safe integers (or [NaN]). *)
Theorem onEndReached_last_page_no_fetch
    (s : state)
    (Hexact : lastPage_exact (pagination s) = true)
    (Hlast : lastPage (pagination s) = true) :
  _onEndReached s = (JUndefined, s, []) ∧
  fetches (log_of (_onEndReached s)) = [].
Proof.
  assert (_onEndReached s = (JUndefined, s, [])) as Heq.
  { apply _onEndReached_skip. rewrite Hlast. apply andb_false_r. }
  by rewrite Heq.
Qed.

Lemma onEndReached_last_page_no_fetch_witness :
  let idle := {| pagination := <["loading" := JBoolean false]> (page_info 3 10 2 22);
                 posts := some_posts 1 22;
                 ds := map PostRow (some_posts 1 22) ++ [Loading (JBoolean false)] |} in
  let busy := {| pagination := <["loading" := JBoolean true]> (page_info 3 10 2 22);
                 posts := some_posts 1 22;
                 ds := map PostRow (some_posts 1 22) ++ [Loading (JBoolean true)] |} in
  (lastPage_exact (pagination idle) = true ∧
   lastPage (pagination idle) = true ∧
   fetches (log_of (_onEndReached idle)) = []) ∧
  (lastPage_exact (pagination busy) = true ∧
   lastPage (pagination busy) = true ∧
   fetches (log_of (_onEndReached busy)) = []).
Proof.
  intros idle busy. split; (split; [reflexivity|]; split; [reflexivity|]).
  - apply (onEndReached_last_page_no_fetch idle eq_refl eq_refl).
  - apply (onEndReached_last_page_no_fetch busy eq_refl eq_refl).
Defined.

(** C3: while [pagination.loading] is [true], [_onEndReached] asks for no
    page, whatever the other pagination fields are; when it is [false] and
    the last page is not reached, it asks for [page + 1] and nothing else.
    In the second part the test and [page + 1] are the ones the source
    computes: the numbers involved are within the safe integers (or
    [NaN]). *)
Theorem onEndReached_loading_gate (s : state) :
  (get "loading" (pagination s) = JBoolean true ->
     _onEndReached s = (JUndefined, s, []) ∧
     fetches (log_of (_onEndReached s)) = []) ∧
  (get "loading" (pagination s) = JBoolean false ->
   lastPage_exact (pagination s) = true ->
   safe (add (get "page" (pagination s)) 1) = true ->
   lastPage (pagination s) = false ->
     _onEndReached s = (JUndefined, state_of (_getPosts (add (get "page" (pagination s)) 1) s),
                        log_of (_getPosts (add (get "page" (pagination s)) 1) s)) ∧
     fetches (log_of (_onEndReached s)) = [add (get "page" (pagination s)) 1] ∧
     (∀ page : Z, get "page" (pagination s) = JNumber page ->
        isSafeInteger (page + 1) = true ∧
        fetches (log_of (_onEndReached s)) = [JNumber (page + 1)])).
Proof.
  split.
  - intros Hl.
    assert (_onEndReached s = (JUndefined, s, [])) as Heq.
    { apply _onEndReached_skip. by rewrite Hl. }
    by rewrite Heq.
  - intros Hl Hexact Hnext Hlast.
    assert (fetches (log_of (_onEndReached s)) = [add (get "page" (pagination s)) 1])
      as Hf.
    { rewrite _onEndReached_fetch by (by rewrite Hl, Hlast).
      by rewrite _getPosts_eq. }
    split_and!.
    + apply _onEndReached_fetch. by rewrite Hl, Hlast.
    + exact Hf.
    + intros page Hp. rewrite Hf. rewrite Hp in Hnext |- *. split; [exact Hnext | reflexivity].
Qed.

Lemma onEndReached_loading_gate_witness :
  let busy := {| pagination := <["loading" := JBoolean true]> (page_info 1 10 10 22);
                 posts := some_posts 1 10;
                 ds := map PostRow (some_posts 1 10) ++ [Loading (JBoolean true)] |} in
  let idle := {| pagination := <["loading" := JBoolean false]> (page_info 1 10 10 22);
                 posts := some_posts 1 10;
                 ds := map PostRow (some_posts 1 10) ++ [Loading (JBoolean false)] |} in
  (get "loading" (pagination busy) = JBoolean true ∧
   fetches (log_of (_onEndReached busy)) = []) ∧
  (get "loading" (pagination idle) = JBoolean false ∧
   lastPage_exact (pagination idle) = true ∧
   safe (add (get "page" (pagination idle)) 1) = true ∧
   lastPage (pagination idle) = false ∧
   get "page" (pagination idle) = JNumber 1 ∧
   fetches (log_of (_onEndReached idle)) = [JNumber 2]).
Proof.
  intros busy idle. split.
  - split; [reflexivity|].
    apply (proj1 (onEndReached_loading_gate busy) eq_refl).
  - do 5 (split; [reflexivity|]).
    destruct (proj2 (onEndReached_loading_gate idle) eq_refl eq_refl eq_refl eq_refl)
      as (_ & _ & Hnext).
    apply (Hnext 1). reflexivity.
Defined.

(** C9: in the state set up by the constructor, where the pagination
    object is empty, [_onEndReached] fetches: the last-page test is
    [undefined <= NaN], which is false, [!pagination.loading] is true, and
    the page asked of the API is [undefined + 1], which is [NaN]. *)
Theorem onEndReached_uninitialized_fetches_NaN :
  pagination constructor = ∅ ∧
  get "totalCount" (pagination constructor) = JUndefined ∧
  add (mul (sub (get "page" (pagination constructor)) 1)
           (get "perPage" (pagination constructor)))
      (get "pageCount" (pagination constructor)) = JNumber NaN ∧
  lastPage (pagination constructor) = false ∧
  JS.not (get "loading" (pagination constructor)) = true ∧
  add (get "page" (pagination constructor)) 1 = JNumber NaN ∧
  fetches (log_of (_onEndReached constructor)) = [JNumber NaN] ∧
  log_of (_onEndReached constructor)
  = [SetState [Loading (JBoolean true)]; ApiGetPosts (JNumber NaN)].
Proof. split_and!; reflexivity. Qed.

(** ** The scenario with 22 posts in pages of 10 *)

Definition scenario_page1 : result :=
  Result (page_info 1 10 10 22) (some_posts 1 10).
Definition scenario_page2 : result :=
  Result (page_info 2 10 10 22) (some_posts 11 10).
Definition scenario_page3 : result :=
  Result (page_info 3 10 2 22) (some_posts 21 2).

(** [(page - 1) * perPage + pageCount], the right-hand side of the
    last-page test. *)
Definition loaded_so_far (pagination : gmap string value) : value :=
  add (mul (sub (get "page" pagination) 1) (get "perPage" pagination))
      (get "pageCount" pagination).

Lemma lastPage_loaded_so_far (o : gmap string value) :
  lastPage o = le (get "totalCount" o) (loaded_so_far o).
Proof. reflexivity. Qed.

(** C7: with [perPage = 10] and [totalCount = 22], after pages 1 and 2 have
    arrived the last-page test is [22 <= (2-1)*10+10 = 20], false, and
    [_onEndReached] asks for page 3; after page 3 has arrived with
    [pageCount = 2] the test is [22 <= (3-1)*10+2 = 22], true, and
    [_onEndReached] asks for nothing. *)
Theorem scenario_22_posts :
  let upto2 := [Mount; Settled (Fulfilled scenario_page1);
                EndReached; Settled (Fulfilled scenario_page2)] in
  let s2 := state_of (run upto2 constructor) in
  let s3 := state_of (run [EndReached; Settled (Fulfilled scenario_page3)] s2) in
  fetches (log_of (run upto2 constructor)) = [JNumber 1; JNumber 2] ∧
  length (posts s2) = 20%nat ∧
  get "totalCount" (pagination s2) = JNumber 22 ∧
  loaded_so_far (pagination s2) = JNumber 20 ∧
  lastPage (pagination s2) = false ∧
  fetches (log_of (_onEndReached s2)) = [JNumber 3] ∧
  posts s3 = some_posts 1 22 ∧
  get "totalCount" (pagination s3) = JNumber 22 ∧
  loaded_so_far (pagination s3) = JNumber 22 ∧
  lastPage (pagination s3) = true ∧
  _onEndReached s3 = (JUndefined, s3, []) ∧
  fetches (log_of (_onEndReached s3)) = [].
Proof. split_and!; vm_compute; reflexivity. Qed.

(** ** The rows handed to the list view *)

(** The outcome of a method hands the list view one row list, the one kept
    in the new state: the items in order, then one loading row carrying
    the new [pagination.loading]. *)
Definition renders_items_then_loading {A} (r : A * state * list effect) : Prop :=
  let s' := state_of r in
  renders (log_of r) = [ds s'] ∧
  ds s' = map PostRow (posts s') ++ [Loading (get "loading" (pagination s'))] ∧
  loading_markers (ds s') = 1%nat.

(** C8: at the start of a fetch, when it is fulfilled and when it is
    rejected, the row list handed to the list view is the items in order
    followed by exactly one loading row whose flag is the current
    [pagination.loading]: [true] at the start, [false] at completion. *)
Theorem render_list_shape (s : state) :
  (∀ n : value,
     renders_items_then_loading (_getPosts n s) ∧
     get "loading" (pagination (state_of (_getPosts n s))) = JBoolean true) ∧
  (∀ r : result,
     renders_items_then_loading (_getPosts_settled (Fulfilled r) s) ∧
     get "loading" (pagination (state_of (_getPosts_settled (Fulfilled r) s)))
     = JBoolean false) ∧
  (∀ e : error,
     renders_items_then_loading (_getPosts_settled (Rejected e) s) ∧
     get "loading" (pagination (state_of (_getPosts_settled (Rejected e) s)))
     = JBoolean false) ∧
  (∀ (p : gmap string value) (ps : list post),
     renders_items_then_loading (_update p ps s)).
Proof.
  unfold renders_items_then_loading. split_and!.
  - intros n. rewrite _getPosts_eq.
    cbn [state_of log_of fst snd ds posts pagination renders].
    rewrite get_insert_eq, loading_markers_rows. done.
  - intros r. rewrite _getPosts_settled_Fulfilled.
    pose proof (_getPostsSuccess_eq r s) as Heq. cbn zeta in Heq. rewrite Heq.
    cbn [state_of log_of fst snd ds posts pagination renders].
    rewrite get_insert_eq, loading_markers_rows. done.
  - intros e. rewrite _getPosts_settled_Rejected, _getPostsFailure_eq.
    cbn [state_of log_of fst snd ds posts pagination renders].
    rewrite get_insert_eq, loading_markers_rows. done.
  - intros p ps. rewrite _update_eq.
    cbn [state_of log_of fst snd ds posts pagination renders].
    rewrite loading_markers_rows. done.
Qed.

(** * Runs of the component *)

(** ** Sequencing *)

Lemma run_cons (ev : event) (evs : list event) (s : state) :
  run (ev :: evs) s =
  (tt, state_of (run evs (state_of (handle ev s))),
   log_of (handle ev s) ++ log_of (run evs (state_of (handle ev s)))).
Proof.
  cbn [run]. unfold bind.
  destruct (handle ev s) as [[[] s1] l1]. cbn [state_of log_of fst snd].
  destruct (run evs s1) as [[[] s2] l2]. reflexivity.
Qed.

Lemma run_app (evs1 evs2 : list event) (s : state) :
  run (evs1 ++ evs2) s =
  (tt, state_of (run evs2 (state_of (run evs1 s))),
   log_of (run evs1 s) ++ log_of (run evs2 (state_of (run evs1 s)))).
Proof.
  revert s. induction evs1 as [|ev evs1 IH]; intros s.
  - cbn. by destruct (run evs2 s) as [[[] s2] l2].
  - cbn [app]. rewrite !run_cons, IH.
    cbn [state_of log_of fst snd]. by rewrite app_assoc.
Qed.

Lemma log_of_run_app (evs1 evs2 : list event) (s : state) :
  log_of (run (evs1 ++ evs2) s)
  = log_of (run evs1 s) ++ log_of (run evs2 (state_of (run evs1 s))).
Proof. by rewrite run_app. Qed.

Lemma state_of_run_app (evs1 evs2 : list event) (s : state) :
  state_of (run (evs1 ++ evs2) s) = state_of (run evs2 (state_of (run evs1 s))).
Proof. by rewrite run_app. Qed.

Lemma fetches_app (l1 l2 : list effect) :
  fetches (l1 ++ l2) = fetches l1 ++ fetches l2.
Proof.
  induction l1 as [|[rows|page|e] l1 IH]; cbn; [done|done| |done].
  by rewrite IH.
Qed.

(** What each event does, in terms of the methods. *)
Lemma handle_Mount (s : state) :
  handle Mount s = (tt, state_of (_getPosts 1 s), log_of (_getPosts 1 s)).
Proof.
  unfold handle, componentWillMount, bind, ret. rewrite _getPosts_eq. reflexivity.
Qed.

Lemma handle_Refresh (s : state) :
  handle Refresh s = (tt, state_of (_getPosts 1 s), log_of (_getPosts 1 s)).
Proof.
  unfold handle, _onRefresh, bind, ret. rewrite _getPosts_eq. reflexivity.
Qed.

Lemma handle_EndReached (s : state) :
  handle EndReached s = (tt, state_of (_onEndReached s), log_of (_onEndReached s)).
Proof.
  unfold handle, bind, ret.
  destruct (_onEndReached s) as [[v s1] l1]. cbn. by rewrite app_nil_r.
Qed.

Lemma handle_Settled (p : promise result) (s : state) :
  handle (Settled p) s =
  (tt, state_of (_getPosts_settled p s), log_of (_getPosts_settled p s)).
Proof.
  unfold handle, bind, ret.
  destruct (_getPosts_settled p s) as [[v s1] l1]. cbn. by rewrite app_nil_r.
Qed.

(** The two outcomes of [_onEndReached]. *)
Lemma _onEndReached_cases (s : state) :
  (_onEndReached s = (JUndefined, s, [])) ∨
  (JS.not (get "loading" (pagination s)) = true ∧
   lastPage (pagination s) = false ∧
   _onEndReached s =
   (JUndefined,
    {| pagination := <["loading" := JBoolean true]> (pagination s);
       posts := posts s;
       ds := map PostRow (posts s) ++ [Loading (JBoolean true)] |},
    [SetState (map PostRow (posts s) ++ [Loading (JBoolean true)]);
     ApiGetPosts (add (get "page" (pagination s)) 1)])).
Proof.
  destruct (JS.not (get "loading" (pagination s)) && negb (lastPage (pagination s)))
    eqn:Hc.
  - right. apply andb_true_iff in Hc as [Hl Hp]. apply negb_true_iff in Hp.
    split_and!; [done|done|].
    rewrite _onEndReached_fetch by (by rewrite Hl, Hp).
    by rewrite _getPosts_eq.
  - left. by apply _onEndReached_skip.
Qed.

Lemma _getPosts_settled_eq (p : promise result) (s : state) :
  ∃ ps : list post, ∃ o : gmap string value, ∃ l : list effect,
    _getPosts_settled p s =
    (Fulfilled JUndefined,
     {| pagination := <["loading" := JBoolean false]> o;
        posts := ps;
        ds := map PostRow ps ++ [Loading (JBoolean false)] |},
     l) ∧ fetches l = [].
Proof.
  destruct p as [r|e].
  - rewrite _getPosts_settled_Fulfilled.
    pose proof (_getPostsSuccess_eq r s) as Heq. cbn zeta in Heq. rewrite Heq.
    by eexists _, _, _.
  - rewrite _getPosts_settled_Rejected, _getPostsFailure_eq.
    by eexists _, _, _.
Qed.

Lemma fetches_settled (p : promise result) (s : state) :
  fetches (log_of (_getPosts_settled p s)) = [].
Proof.
  by destruct (_getPosts_settled_eq p s) as (ps & o & l & -> & Hl).
Qed.

(** ** The state kept between events *)

(** The data source shows the stored items followed by one loading row, and
    the flag of that row is the stored [pagination.loading], a boolean. *)
Definition in_sync (s : state) : Prop :=
  ∃ b : bool,
    pagination s !! "loading"%string = Some (JBoolean b) ∧
    ds s = map PostRow (posts s) ++ [Loading (JBoolean b)].

Lemma handle_in_sync (ev : event) (s : state) :
  ev = EndReached -> in_sync s -> in_sync (state_of (handle ev s)).
Proof.
  intros -> Hs. rewrite handle_EndReached.
  destruct (_onEndReached_cases s) as [-> | (_ & _ & ->)]; [exact Hs|].
  exists true. cbn. by rewrite lookup_insert_eq.
Qed.

Lemma handle_establishes_in_sync (ev : event) (s : state) :
  ev ≠ EndReached -> in_sync (state_of (handle ev s)).
Proof.
  destruct ev as [| | |p]; intros Hev; [| |done|].
  - rewrite handle_Mount, _getPosts_eq. exists true. cbn. by rewrite lookup_insert_eq.
  - rewrite handle_Refresh, _getPosts_eq. exists true. cbn. by rewrite lookup_insert_eq.
  - rewrite handle_Settled.
    destruct (_getPosts_settled_eq p s) as (ps & o & l & -> & _).
    exists false. cbn. by rewrite lookup_insert_eq.
Qed.

Lemma run_in_sync (evs : list event) (s : state) :
  in_sync s -> in_sync (state_of (run evs s)).
Proof.
  revert s. induction evs as [|ev evs IH]; intros s Hs; [exact Hs|].
  rewrite run_cons. cbn [state_of fst snd]. apply IH.
  destruct ev as [| | |p].
  - by apply handle_establishes_in_sync.
  - by apply handle_establishes_in_sync.
  - by apply handle_in_sync.
  - by apply handle_establishes_in_sync.
Qed.

(** After the component has mounted, whatever events follow, the data
    source shows the stored items in order followed by exactly one loading
    row, whose flag is the stored [pagination.loading], a boolean. *)
Theorem mounted_component_in_sync (evs : list event) (s : state) :
  let s' := state_of (run (Mount :: evs) s) in
  in_sync s' ∧
  ds s' = map PostRow (posts s') ++ [Loading (get "loading" (pagination s'))] ∧
  loading_markers (ds s') = 1%nat.
Proof.
  intros s'.
  assert (in_sync s') as Hs.
  { subst s'. rewrite run_cons. cbn [state_of fst snd].
    apply run_in_sync. by apply handle_establishes_in_sync. }
  split; [exact Hs|]. destruct Hs as (b & Hb & Hds).
  rewrite Hds. unfold get. rewrite Hb. split; [reflexivity|].
  apply loading_markers_rows.
Qed.

(** ** Fetches in a run *)

(** The events that come from the user or the framework, as opposed to the
    settlement of a promise. *)
Definition is_gesture (ev : event) : bool :=
  match ev with
  | Settled _ => false
  | _ => true
  end.

Fixpoint gestures (evs : list event) : nat :=
  match evs with
  | [] => 0%nat
  | ev :: evs' => ((if is_gesture ev then 1 else 0) + gestures evs')%nat
  end.

Lemma handle_fetches (ev : event) (s : state) :
  (length (fetches (log_of (handle ev s))) ≤ (if is_gesture ev then 1 else 0))%nat.
Proof.
  destruct ev as [| | |p].
  - rewrite handle_Mount, _getPosts_eq. cbn. lia.
  - rewrite handle_Refresh, _getPosts_eq. cbn. lia.
  - rewrite handle_EndReached.
    destruct (_onEndReached_cases s) as [-> | (_ & _ & ->)]; cbn; lia.
  - rewrite handle_Settled.
    destruct (_getPosts_settled_eq p s) as (ps & o & l & -> & Hl).
    cbn [log_of snd is_gesture]. rewrite Hl. cbn. lia.
Qed.

(** A run calls [API.getPosts] at most once per gesture: the settlement of
    a promise, fulfilled or rejected, never starts a fetch, so a failed page
    is not retried and a page that arrived does not pull the next one. *)
Theorem fetches_bounded_by_gestures (evs : list event) (s : state) :
  (length (fetches (log_of (run evs s))) ≤ gestures evs)%nat ∧
  (∀ ps : list (promise result), fetches (log_of (run (map Settled ps) s)) = []).
Proof.
  assert (∀ evs s, (length (fetches (log_of (run evs s))) ≤ gestures evs)%nat) as Hb.
  { clear. intros evs. induction evs as [|ev evs IH]; intros s; [cbn; lia|].
    rewrite run_cons. cbn [log_of snd gestures]. rewrite fetches_app, length_app.
    pose proof (handle_fetches ev s). pose proof (IH (state_of (handle ev s))).
    unfold log_of in *. lia. }
  split; [apply Hb|]. intros ps.
  assert (gestures (map Settled ps) = 0%nat) as H0.
  { induction ps as [|p ps IH]; [done|]. cbn. exact IH. }
  specialize (Hb (map Settled ps) s). rewrite H0 in Hb.
  destruct (fetches (log_of (run (map Settled ps) s))); [done|]. cbn in Hb. lia.
Qed.

Lemma _onEndReached_twice (s : state) :
  _onEndReached (state_of (_onEndReached s))
  = (JUndefined, state_of (_onEndReached s), []).
Proof.
  destruct (_onEndReached_cases s) as [Hs | (_ & _ & Hs)]; rewrite Hs.
  - exact Hs.
  - cbn [state_of fst snd]. apply _onEndReached_skip.
    cbn [pagination]. by rewrite get_insert_eq.
Qed.

Lemma run_EndReached_idle (n : nat) (s : state) :
  _onEndReached s = (JUndefined, s, []) ->
  run (replicate n EndReached) s = (tt, s, []).
Proof.
  intros Hs. induction n as [|n IH]; [reflexivity|].
  cbn [replicate]. rewrite run_cons, handle_EndReached, Hs.
  cbn [state_of log_of fst snd]. by rewrite IH.
Qed.

(** Reaching the end of the list again and again before anything settles
    is the same as reaching it once: the same state, and the same log, so
    at most one fetch. *)
Theorem onEndReached_repeated (n : nat) (s : state) :
  state_of (run (replicate (S n) EndReached) s) = state_of (_onEndReached s) ∧
  log_of (run (replicate (S n) EndReached) s) = log_of (_onEndReached s) ∧
  (length (fetches (log_of (run (replicate (S n) EndReached) s))) ≤ 1)%nat.
Proof.
  assert (run (replicate (S n) EndReached) s
          = (tt, state_of (_onEndReached s), log_of (_onEndReached s))) as Heq.
  { cbn [replicate]. rewrite run_cons, handle_EndReached.
    cbn [state_of log_of fst snd].
    rewrite (run_EndReached_idle n _ (_onEndReached_twice s)).
    cbn [state_of log_of fst snd]. by rewrite app_nil_r. }
  rewrite Heq. cbn [state_of log_of fst snd]. split_and!; [done|done|].
  destruct (_onEndReached_cases s) as [-> | (_ & _ & ->)]; cbn; lia.
Qed.

Lemma _getPosts_twice (n m : value) (s : state) :
  state_of (_getPosts m (state_of (_getPosts n s))) = state_of (_getPosts n s).
Proof.
  rewrite !_getPosts_eq. cbn [state_of fst snd pagination posts].
  by rewrite insert_insert_eq.
Qed.

(** Pull-to-refresh has no gate: each of [n] refreshes in a row calls
    [API.getPosts(1)], also while earlier ones are in flight, and the state
    after them is the state after one. *)
Theorem onRefresh_repeated (n : nat) (s : state) :
  fetches (log_of (run (replicate n Refresh) s)) = replicate n (JNumber 1) ∧
  state_of (run (replicate (S n) Refresh) s) = state_of (_onRefresh s).
Proof.
  split.
  - revert s. induction n as [|n IH]; intros s; [reflexivity|].
    cbn [replicate]. rewrite run_cons, handle_Refresh.
    cbn [state_of log_of fst snd]. rewrite fetches_app.
    rewrite IH. by rewrite _getPosts_eq.
  - revert s. induction n as [|n IH]; intros s.
    + cbn [replicate]. rewrite run_cons, handle_Refresh. reflexivity.
    + change (replicate (S (S n)) Refresh) with (Refresh :: replicate (S n) Refresh).
      rewrite run_cons, handle_Refresh. cbn [state_of fst snd].
      rewrite IH. unfold _onRefresh. apply _getPosts_twice.
Qed.

(** ** Pages arriving one after the other *)

(** The payload is for a page after the first. *)
Definition later_page (r : result) : Prop :=
  ∃ k : Z, get "page" (result_pagination r) = JNumber k ∧ 1 < k.

Lemma settled_Fulfilled_posts (r : result) (s : state) :
  posts (state_of (_getPosts_settled (Fulfilled r) s))
  = if strict_eq (get "page" (result_pagination r)) 1
    then records r else posts s ++ records r.
Proof.
  rewrite _getPosts_settled_Fulfilled.
  pose proof (_getPostsSuccess_eq r s) as Heq. cbn zeta in Heq. by rewrite Heq.
Qed.

Lemma settled_Fulfilled_pagination (r : result) (s : state) :
  pagination (state_of (_getPosts_settled (Fulfilled r) s))
  = <["loading" := JBoolean false]> (result_pagination r).
Proof.
  rewrite _getPosts_settled_Fulfilled.
  pose proof (_getPostsSuccess_eq r s) as Heq. cbn zeta in Heq. by rewrite Heq.
Qed.

Lemma later_page_not_first (r : result) :
  later_page r -> strict_eq (get "page" (result_pagination r)) 1 = false.
Proof.
  intros (k & -> & Hk). cbn. by apply Z.eqb_neq, Z.neq_sym, Z.lt_neq.
Qed.

Lemma run_later_pages (rs : list result) (s : state) :
  Forall later_page rs ->
  posts (state_of (run (map (fun r => Settled (Fulfilled r)) rs) s))
  = posts s ++ concat (map records rs).
Proof.
  intros Hrs. revert s. induction Hrs as [|r rs Hr Hrs IH]; intros s.
  - cbn. by rewrite app_nil_r.
  - cbn [map concat]. rewrite run_cons, handle_Settled.
    cbn [state_of fst snd]. rewrite IH.
    change ((_getPosts_settled (Fulfilled r) s).1.2)
      with (state_of (_getPosts_settled (Fulfilled r) s)).
    rewrite settled_Fulfilled_posts, later_page_not_first by done.
    by rewrite app_assoc.
Qed.

(** When the pages of a listing arrive in a row, first page [1] and then
    any number of later pages, the items are the records of all of them
    concatenated in arrival order, whatever the items were before; later
    pages alone are appended to the items there were. *)
Theorem pages_accumulate (s : state) (r1 : result) (rs : list result)
    (Hfirst : get "page" (result_pagination r1) = JNumber 1)
    (Hlater : Forall later_page rs) :
  posts (state_of (run (map (fun r => Settled (Fulfilled r)) (r1 :: rs)) s))
  = concat (map records (r1 :: rs)) ∧
  posts (state_of (run (map (fun r => Settled (Fulfilled r)) rs) s))
  = posts s ++ concat (map records rs).
Proof.
  split; [|by apply run_later_pages].
  cbn [map concat]. rewrite run_cons, handle_Settled. cbn [state_of fst snd].
  rewrite run_later_pages by done.
  change ((_getPosts_settled (Fulfilled r1) s).1.2)
    with (state_of (_getPosts_settled (Fulfilled r1) s)).
  by rewrite settled_Fulfilled_posts, Hfirst.
Qed.

Lemma pages_accumulate_witness :
  let s := {| pagination := <["loading" := JBoolean true]> (page_info 4 2 1 7);
              posts := some_posts 1 7;
              ds := map PostRow (some_posts 1 7) ++ [Loading (JBoolean true)] |} in
  let r1 := Result (page_info 1 2 2 5) (some_posts 1 2) in
  let r2 := Result (page_info 2 2 2 5) (some_posts 3 2) in
  let r3 := Result (page_info 3 2 1 5) (some_posts 5 1) in
  get "page" (result_pagination r1) = JNumber 1 ∧
  Forall later_page [r2; r3] ∧
  posts (state_of (run (map (fun r => Settled (Fulfilled r)) [r1; r2; r3]) s))
  = some_posts 1 5.
Proof.
  intros s r1 r2 r3.
  assert (Forall later_page [r2; r3]) as Hl.
  { repeat constructor.
    - exists 2. split; [reflexivity | lia].
    - exists 3. split; [reflexivity | lia]. }
  split; [reflexivity|]. split; [exact Hl|].
  exact (proj1 (pages_accumulate s r1 [r2; r3] eq_refl Hl)).
Defined.

(** The handlers apply a payload to the state of the moment it arrives, with
    no check of which request it answers: when page [1] and a later page
    are both in flight, page [1] arriving first leaves its records followed
    by those of the later page, and page [1] arriving last leaves its
    records alone; the stored page number is that of the last arrival. *)
Theorem arrival_order_decides (s : state) (r1 r2 : result) (k : Z)
    (Hfirst : get "page" (result_pagination r1) = JNumber 1)
    (Hlater : get "page" (result_pagination r2) = JNumber k)
    (Hk : 1 < k) :
  let s12 := state_of (run [Settled (Fulfilled r1); Settled (Fulfilled r2)] s) in
  let s21 := state_of (run [Settled (Fulfilled r2); Settled (Fulfilled r1)] s) in
  posts s12 = records r1 ++ records r2 ∧
  get "page" (pagination s12) = JNumber k ∧
  posts s21 = records r1 ∧
  get "page" (pagination s21) = JNumber 1.
Proof.
  intros s12 s21. subst s12 s21.
  rewrite !run_cons, !handle_Settled. cbn [run ret state_of fst snd].
  rewrite !settled_Fulfilled_posts, !settled_Fulfilled_pagination.
  rewrite !get_insert_ne, Hfirst, Hlater by done.
  cbn [strict_eq]. destruct (Z.eqb_spec k 1); [lia|]. done.
Qed.

Lemma arrival_order_decides_witness :
  let r1 := Result (page_info 1 2 2 5) (some_posts 1 2) in
  let r2 := Result (page_info 2 2 2 5) (some_posts 3 2) in
  let s := state_of (run [Mount; Settled (Fulfilled r1); EndReached; Refresh] constructor) in
  get "page" (result_pagination r1) = JNumber 1 ∧
  get "page" (result_pagination r2) = JNumber 2 ∧
  1 < 2 ∧
  posts (state_of (run [Settled (Fulfilled r1); Settled (Fulfilled r2)] s))
  = some_posts 1 4 ∧
  posts (state_of (run [Settled (Fulfilled r2); Settled (Fulfilled r1)] s))
  = some_posts 1 2.
Proof.
  intros r1 r2 s.
  destruct (arrival_order_decides s r1 r2 2 eq_refl eq_refl ltac:(lia))
    as (H12 & _ & H21 & _).
  split; [reflexivity|]. split; [reflexivity|]. split; [lia|].
  split; [exact H12 | exact H21].
Defined.

(** ** Incomplete pagination *)

Lemma lastPage_no_page (o : gmap string value) :
  ToNumber (get "page" o) = NaN -> lastPage o = false.
Proof.
  intros Hp. unfold lastPage, sub, mul, add, le. rewrite Hp. cbn.
  by destruct (ToNumber (get "totalCount" o)).
Qed.

(** When the stored pagination has no usable page number (as after the
    first fetch of a freshly mounted component), a rejected fetch leaves
    the component ready to fetch, and reaching the end of the list then
    calls [API.getPosts(NaN)]. *)
Theorem rejected_then_onEndReached_fetches_NaN (s : state) (e : error)
    (Hpage : ToNumber (get "page" (pagination s)) = NaN) :
  fetches (log_of (run [Settled (Rejected e); EndReached] s)) = [JNumber NaN].
Proof.
  rewrite run_cons, handle_Settled, _getPosts_settled_Rejected, _getPostsFailure_eq.
  cbn [state_of log_of fst snd]. rewrite run_cons, handle_EndReached.
  cbn [run ret state_of log_of fst snd].
  set (s1 := {| pagination := <["loading" := JBoolean false]> (pagination s);
                posts := posts s;
                ds := map PostRow (posts s) ++ [Loading (JBoolean false)] |}).
  assert (get "page" (pagination s1) = get "page" (pagination s)) as Hp1.
  { cbn [s1 pagination]. by rewrite get_insert_ne. }
  rewrite _onEndReached_fetch.
  - rewrite _getPosts_eq. cbn [log_of snd app fetches].
    rewrite Hp1. unfold add. by rewrite Hpage.
  - rewrite lastPage_no_page by (by rewrite Hp1).
    cbn [s1 pagination]. by rewrite get_insert_eq.
Qed.

Lemma rejected_then_onEndReached_fetches_NaN_witness :
  let s := state_of (run [Mount] constructor) in
  ToNumber (get "page" (pagination s)) = NaN ∧
  fetches (log_of (run [Mount; Settled (Rejected "Network request failed"%string);
                        EndReached] constructor))
  = [JNumber 1; JNumber NaN].
Proof.
  intros s. split; [reflexivity|].
  change [Mount; Settled (Rejected "Network request failed"%string); EndReached]
    with ([Mount] ++ [Settled (Rejected "Network request failed"%string); EndReached]).
  rewrite log_of_run_app, fetches_app. fold s.
  rewrite (rejected_then_onEndReached_fetches_NaN s "Network request failed"%string eq_refl).
  reflexivity.
Defined.

(** * Scrolling through a listing *)

(** The environment answers every fetch of a log, in order, by settling the
    promise with what [API.getPosts] delivers for the page. *)
Definition answers (api : value -> promise result) (l : list effect) : list event :=
  map (fun page => Settled (api page)) (fetches l).

(** A gesture, then the answers to the fetches it started. *)
Definition answered (api : value -> promise result) (ev : event) : M unit :=
  fun s =>
    let r := handle ev s in
    let r' := run (answers api (log_of r)) (state_of r) in
    (tt, state_of r', log_of r ++ log_of r').

Fixpoint session (api : value -> promise result) (evs : list event) : M unit :=
  match evs with
  | [] => ret tt
  | ev :: evs' => answered api ev ;; session api evs'
  end.

(** The records of page [k], counted from 1, of a listing cut in pages of
    [perPage]. *)
Definition page_records (perPage : nat) (items : list post) (k : nat) : list post :=
  take perPage (drop ((k - 1) * perPage) items).

(** The number of pages of the listing; an empty listing has one, empty,
    page. *)
Definition page_count (perPage : nat) (items : list post) : nat :=
  S ((length items - 1) / perPage).

(** The promise is fulfilled with page [k] of the listing: its records,
    and a pagination object that describes them. *)
Definition serves_page (perPage : nat) (items : list post) (k : nat)
    (p : promise result) : Prop :=
  ∃ o : gmap string value,
    p = Fulfilled (Result o (page_records perPage items k)) ∧
    get "page" o = JNumber (Z.of_nat k) ∧
    get "perPage" o = JNumber (Z.of_nat perPage) ∧
    get "pageCount" o = JNumber (Z.of_nat (length (page_records perPage items k))) ∧
    get "totalCount" o = JNumber (Z.of_nat (length items)).

(** An API that serves a listing held in memory. *)
Definition listing_api (perPage : nat) (items : list post) (page : value)
    : promise result :=
  match page with
  | JNumber (Int k) =>
      let recs := page_records perPage items (Z.to_nat k) in
      Fulfilled (Result (page_info k (Z.of_nat perPage) (Z.of_nat (length recs))
                                   (Z.of_nat (length items)))
                        recs)
  | _ => Rejected "no such page"
  end.

Lemma listing_api_serves (perPage : nat) (items : list post) (k : nat) :
  serves_page perPage items k (listing_api perPage items (JNumber (Z.of_nat k))).
Proof.
  unfold listing_api. rewrite Nat2Z.id. eexists. split; [reflexivity|].
  split_and!; reflexivity.
Qed.

Section Listing.

Variable api : value -> promise result.
Variable perPage : nat.
Variable items : list post.

Hypothesis perPage_pos : (0 < perPage)%nat.
Hypothesis api_serves :
  ∀ k : nat, (1 ≤ k)%nat -> serves_page perPage items k (api (JNumber (Z.of_nat k))).

(** The component holds the first [k] pages and is idle. *)
Definition loaded (k : nat) (s : state) : Prop :=
  posts s = take (k * perPage) items ∧
  get "loading" (pagination s) = JBoolean false ∧
  get "page" (pagination s) = JNumber (Z.of_nat k) ∧
  get "perPage" (pagination s) = JNumber (Z.of_nat perPage) ∧
  get "pageCount" (pagination s)
  = JNumber (Z.of_nat (length (page_records perPage items k))) ∧
  get "totalCount" (pagination s) = JNumber (Z.of_nat (length items)).

Lemma lastPage_loaded (k : nat) (s : state) :
  (1 ≤ k)%nat -> loaded k s ->
  lastPage (pagination s) = bool_decide (length items ≤ k * perPage)%nat.
Proof.
  intros Hk (_ & _ & Hp & Hpp & Hpc & Htc).
  rewrite (lastPage_Int _ _ _ _ _ Hp Hpp Hpc Htc).
  unfold page_records. rewrite length_take, length_drop.
  destruct k as [|k]; [lia|]. cbn [Nat.sub]. rewrite Nat.sub_0_r.
  replace (Z.of_nat (S k) - 1) with (Z.of_nat k) by lia.
  rewrite <- Nat2Z.inj_mul. cbn [Nat.mul].
  generalize (k * perPage)%nat. intros m.
  case_bool_decide; [apply Z.leb_le | apply Z.leb_gt]; lia.
Qed.

Lemma page_count_last : (length items ≤ page_count perPage items * perPage)%nat.
Proof.
  unfold page_count.
  pose proof (Nat.div_mod_eq (length items - 1) perPage).
  pose proof (Nat.mod_upper_bound (length items - 1) perPage).
  nia.
Qed.

Lemma page_count_more (k : nat) :
  (1 ≤ k < page_count perPage items)%nat -> (k * perPage < length items)%nat.
Proof.
  unfold page_count.
  pose proof (Nat.div_mod_eq (length items - 1) perPage).
  pose proof (Nat.mod_upper_bound (length items - 1) perPage).
  nia.
Qed.

(** Page [k] arrives at a component that holds the pages before it. *)
Lemma settle_page (k : nat) (s : state) :
  (1 ≤ k)%nat ->
  (k = 1%nat ∨ posts s = take ((k - 1) * perPage) items) ->
  loaded k (state_of (_getPosts_settled (api (JNumber (Z.of_nat k))) s)).
Proof.
  intros Hk Hs.
  destruct (api_serves k Hk) as (o & -> & Hp & Hpp & Hpc & Htc).
  unfold loaded.
  rewrite settled_Fulfilled_posts, settled_Fulfilled_pagination.
  rewrite get_insert_eq, !get_insert_ne by done. cbn [result_pagination records].
  split_and!; [|done..].
  rewrite Hp. cbn [strict_eq]. destruct (Z.eqb_spec (Z.of_nat k) 1) as [H1|H1].
  - assert (k = 1%nat) as -> by lia. unfold page_records. cbn [Nat.sub Nat.mul drop].
    by rewrite Nat.add_0_r.
  - destruct Hs as [->|Hs]; [done|]. rewrite Hs. unfold page_records.
    rewrite take_take_drop. f_equal. destruct k; [lia|]. cbn. lia.
Qed.

Lemma answered_Mount (s : state) :
  loaded 1 (state_of (answered api Mount s)) ∧
  fetches (log_of (answered api Mount s)) = [JNumber 1].
Proof.
  unfold answered, answers. rewrite handle_Mount, _getPosts_eq.
  cbn [state_of log_of fst snd fetches map].
  rewrite run_cons, handle_Settled. cbn [run ret state_of log_of fst snd].
  split.
  - apply (settle_page 1); [lia | by left].
  - by rewrite !fetches_app, fetches_settled.
Qed.

Lemma answered_EndReached_more (k : nat) (s : state) :
  (1 ≤ k)%nat -> (k * perPage < length items)%nat -> loaded k s ->
  loaded (S k) (state_of (answered api EndReached s)) ∧
  fetches (log_of (answered api EndReached s)) = [JNumber (Z.of_nat (S k))].
Proof.
  intros Hk Hmore Hs.
  pose proof (lastPage_loaded k s Hk Hs) as Hlast.
  rewrite bool_decide_eq_false_2 in Hlast by lia.
  destruct Hs as (Hposts & Hl & Hp & _).
  unfold answered, answers. rewrite handle_EndReached.
  rewrite _onEndReached_fetch by (by rewrite Hl, Hlast).
  rewrite _getPosts_eq. cbn [state_of log_of fst snd fetches map].
  rewrite Hp.
  replace (add (JNumber (Z.of_nat k)) (JNumber 1)) with (JNumber (Z.of_nat (S k)))
    by (unfold add; cbn; do 2 f_equal; lia).
  rewrite run_cons, handle_Settled. cbn [run ret state_of log_of fst snd].
  split.
  - apply (settle_page (S k)); [lia|]. right. cbn [posts Nat.sub].
    by rewrite Nat.sub_0_r.
  - by rewrite !fetches_app, fetches_settled.
Qed.

Lemma answered_EndReached_done (k : nat) (s : state) :
  (1 ≤ k)%nat -> (length items ≤ k * perPage)%nat -> loaded k s ->
  answered api EndReached s = (tt, s, []).
Proof.
  intros Hk Hdone Hs.
  pose proof (lastPage_loaded k s Hk Hs) as Hlast.
  rewrite bool_decide_eq_true_2 in Hlast by lia.
  unfold answered, answers. rewrite handle_EndReached.
  rewrite _onEndReached_skip by (rewrite Hlast; apply andb_false_r).
  reflexivity.
Qed.

Lemma session_cons (ev : event) (evs : list event) (s : state) :
  session api (ev :: evs) s =
  (tt, state_of (session api evs (state_of (answered api ev s))),
   log_of (answered api ev s) ++ log_of (session api evs (state_of (answered api ev s)))).
Proof.
  cbn [session]. unfold bind.
  destruct (answered api ev s) as [[[] s1] l1]. cbn [state_of log_of fst snd].
  destruct (session api evs s1) as [[[] s2] l2]. reflexivity.
Qed.

Definition page_number (k : nat) : value := JNumber (Z.of_nat k).

Lemma session_scroll (n k : nat) (s : state) :
  (1 ≤ k ≤ page_count perPage items)%nat -> loaded k s ->
  let k' := ((k + n) `min` page_count perPage items)%nat in
  loaded k' (state_of (session api (replicate n EndReached) s)) ∧
  fetches (log_of (session api (replicate n EndReached) s))
  = map page_number (seq (S k) (k' - k)).
Proof.
  revert k s. induction n as [|n IH]; intros k s Hk Hs k'.
  - subst k'. replace ((k + 0) `min` page_count perPage items)%nat with k by lia.
    rewrite Nat.sub_diag. by split.
  - cbn [replicate]. rewrite session_cons. cbn [state_of log_of fst snd].
    rewrite fetches_app.
    destruct (decide (k < page_count perPage items)%nat) as [Hlt|Hge].
    + destruct (answered_EndReached_more k s) as [Hs' Hf];
        [lia | apply page_count_more; lia | done |].
      destruct (IH (S k) _ ltac:(lia) Hs') as [Hs'' Hf'].
      replace ((S k + n) `min` page_count perPage items)%nat with k' in Hs'', Hf'
        by (subst k'; lia).
      split; [exact Hs''|]. rewrite Hf, Hf'.
      replace (k' - k)%nat with (S (k' - S k)) by (subst k'; lia).
      reflexivity.
    + assert (k = page_count perPage items) as Hkk by lia.
      rewrite (answered_EndReached_done k s) by
        (try done; try lia; rewrite Hkk; apply page_count_last).
      cbn [state_of log_of fst snd fetches app].
      destruct (IH k s Hk Hs) as [Hs'' Hf'].
      replace ((k + n) `min` page_count perPage items)%nat with k' in Hs'', Hf'
        by (subst k'; lia).
      by split.
Qed.

(** Against an API that serves a listing in pages of [perPage], mounting the
    component and reaching the end of the list [n] times, each fetch being
    answered before the next gesture, leaves the first [(n + 1) * perPage]
    items of the listing, in order, and has fetched the pages from 1 on,
    each once and none beyond the last; once [n + 1] is at least the number
    of pages, the items are the whole listing and the last page is
    detected. *)
Theorem scrolling_loads_the_listing (n : nat) (s : state) :
  let r := session api (Mount :: replicate n EndReached) s in
  posts (state_of r) = take (S n * perPage) items ∧
  fetches (log_of r)
  = map page_number (seq 1 (S n `min` page_count perPage items)%nat) ∧
  get "loading" (pagination (state_of r)) = JBoolean false ∧
  ((page_count perPage items ≤ S n)%nat ->
     posts (state_of r) = items ∧ lastPage (pagination (state_of r)) = true).
Proof.
  intros r. subst r. rewrite session_cons. cbn [state_of log_of fst snd].
  destruct (answered_Mount s) as [H1 Hf1].
  assert (1 ≤ 1 ≤ page_count perPage items)%nat as Hk by (unfold page_count; lia).
  destruct (session_scroll n 1 _ Hk H1) as [Hs Hf].
  rewrite fetches_app, Hf1, Hf.
  set (k' := ((1 + n) `min` page_count perPage items)%nat) in *.
  set (s' := state_of (session api (replicate n EndReached)
                         (state_of (answered api Mount s)))) in *.
  pose proof page_count_last as Hlast.
  assert (posts s' = take (S n * perPage) items) as Hposts.
  { destruct Hs as (-> & _).
    destruct (decide (S n ≤ page_count perPage items)%nat).
    - by replace k' with (S n) by (subst k'; lia).
    - replace k' with (page_count perPage items) by (subst k'; lia).
      rewrite !take_ge; [done | nia | lia]. }
  split_and!.
  - exact Hposts.
  - replace (S n `min` page_count perPage items)%nat with (S (k' - 1))
      by (subst k'; lia).
    reflexivity.
  - by destruct Hs as (_ & -> & _).
  - intros Hall. split.
    + rewrite Hposts. apply take_ge. nia.
    + rewrite (lastPage_loaded k' s') by (try done; subst k'; lia).
      apply bool_decide_eq_true_2. subst k'.
      replace ((1 + n) `min` page_count perPage items)%nat
        with (page_count perPage items) by lia.
      exact Hlast.
Qed.

End Listing.

Lemma scrolling_loads_the_listing_witness :
  let items := some_posts 1 22 in
  let r := session (listing_api 10 items) (Mount :: replicate 4 EndReached) constructor in
  (0 < 10)%nat ∧
  posts (state_of r) = items ∧
  fetches (log_of r) = [JNumber 1; JNumber 2; JNumber 3] ∧
  lastPage (pagination (state_of r)) = true.
Proof.
  intros items r.
  destruct (scrolling_loads_the_listing (listing_api 10 items) 10 items
              ltac:(lia) (fun k _ => listing_api_serves 10 items k) 4 constructor)
    as (_ & Hf & _ & Hall).
  destruct Hall as [Hp Hl]; [vm_compute; lia|].
  split; [lia|]. split; [exact Hp|]. split; [exact Hf | exact Hl].
Defined.

(** * What the list view draws *)

(** The entries of the style sheet, by name. *)
Module styles.
Inductive name : Type := container | loading | row | title | desc.
End styles.

(** The elements the component builds. *)
#[warnings="-register-all"]
Inductive element : Type :=
| View (style : styles.name) (children : list element)
| Text (style : styles.name) (text : string)
| ActivityIndicator (animating : bool) (style : list styles.name) (size : string)
| null.

Definition LoadingIndicator (loading : value) : element :=
  if ToBoolean loading
  then View styles.loading [ActivityIndicator true [styles.loading] "large"]
  else null.

Definition _renderRow (row : row) : element :=
  match row with
  | Loading loading => LoadingIndicator loading
  | PostRow p =>
      View styles.row [Text styles.title (title p); Text styles.desc (description p)]
  end.

(** The spinners among drawn rows. *)
Definition is_spinner (e : element) : bool :=
  match e with
  | View styles.loading [ActivityIndicator true _ _] => true
  | _ => false
  end.

Fixpoint spinners (es : list element) : nat :=
  match es with
  | [] => 0%nat
  | e :: es' => ((if is_spinner e then 1 else 0) + spinners es')%nat
  end.

Lemma _renderRow_posts (ps : list post) (v : value) :
  map _renderRow (map PostRow ps ++ [Loading v])
  = map (fun p => View styles.row [Text styles.title (title p);
                                   Text styles.desc (description p)]) ps
    ++ [LoadingIndicator v].
Proof. rewrite map_app, map_map. reflexivity. Qed.

Lemma spinners_posts (ps : list post) (e : element) :
  spinners (map (fun p => View styles.row [Text styles.title (title p);
                                           Text styles.desc (description p)]) ps
            ++ [e])
  = if is_spinner e then 1%nat else 0%nat.
Proof.
  induction ps as [|p ps IH]; cbn [map app spinners].
  - lia.
  - rewrite IH. reflexivity.
Qed.

(** Once the component has mounted, whatever events follow, the list view
    draws one title-and-description row per stored item, in order, and
    then the loading indicator: a spinner while [pagination.loading] is
    [true] and nothing when it is [false]; no other row is a spinner. *)
Theorem drawn_rows (evs : list event) (s : state) :
  let s' := state_of (run (Mount :: evs) s) in
  ∃ b : bool,
    get "loading" (pagination s') = JBoolean b ∧
    map _renderRow (ds s')
    = map (fun p => View styles.row [Text styles.title (title p);
                                     Text styles.desc (description p)]) (posts s')
      ++ [if b then View styles.loading [ActivityIndicator true [styles.loading] "large"]
          else null] ∧
    spinners (map _renderRow (ds s')) = (if b then 1 else 0)%nat.
Proof.
  intros s'.
  assert (in_sync s') as (b & Hb & Hds).
  { subst s'. rewrite run_cons. cbn [state_of fst snd].
    apply run_in_sync. by apply handle_establishes_in_sync. }
  exists b. unfold get. rewrite Hb, Hds, _renderRow_posts, spinners_posts.
  split; [reflexivity|]. by destruct b.
Qed.

(** * After a fetch has settled *)

(** No fetch is pending as far as the component knows, and the data source
    shows the stored items with the loading row switched off. *)
Definition settled_state (s : state) : Prop :=
  pagination s !! "loading"%string = Some (JBoolean false) ∧
  ds s = map PostRow (posts s) ++ [Loading (JBoolean false)].

Lemma settled_state_after (p : promise result) (s : state) :
  settled_state (state_of (_getPosts_settled p s)).
Proof.
  destruct (_getPosts_settled_eq p s) as (ps & o & l & -> & _).
  split; cbn; [by rewrite lookup_insert_eq | done].
Qed.

Lemma answered_fetching (api : value -> promise result) (ev : event) (page : value)
    (s s1 : state) (rows : DataSource) :
  handle ev s = (tt, s1, [SetState rows; ApiGetPosts page]) ->
  state_of (answered api ev s) = state_of (_getPosts_settled (api page) s1).
Proof.
  intros Hev. unfold answered, answers. rewrite Hev.
  cbn [state_of log_of fst snd fetches map].
  rewrite run_cons, handle_Settled. reflexivity.
Qed.

Lemma answered_settled_state (api : value -> promise result) (ev : event) (s : state) :
  ev ≠ EndReached ∨ settled_state s ->
  settled_state (state_of (answered api ev s)).
Proof.
  intros Hs. destruct ev as [| | |p].
  - pose proof (handle_Mount s) as Hev. rewrite _getPosts_eq in Hev.
    rewrite (answered_fetching _ _ _ _ _ _ Hev). apply settled_state_after.
  - pose proof (handle_Refresh s) as Hev. rewrite _getPosts_eq in Hev.
    rewrite (answered_fetching _ _ _ _ _ _ Hev). apply settled_state_after.
  - destruct Hs as [?|Hs]; [done|].
    pose proof (handle_EndReached s) as Hev.
    destruct (_onEndReached_cases s) as [Hc | (_ & _ & Hc)]; rewrite Hc in Hev.
    + unfold answered, answers. rewrite Hev. exact Hs.
    + rewrite (answered_fetching _ _ _ _ _ _ Hev). apply settled_state_after.
  - unfold answered, answers. rewrite handle_Settled.
    cbn [log_of state_of fst snd]. rewrite fetches_settled.
    apply settled_state_after.
Qed.

Lemma session_settled_state (api : value -> promise result) (evs : list event)
    (s : state) :
  settled_state s -> settled_state (state_of (session api evs s)).
Proof.
  revert s. induction evs as [|ev evs IH]; intros s Hs; [exact Hs|].
  rewrite session_cons. cbn [state_of fst snd].
  apply IH, answered_settled_state. by right.
Qed.

(** Whatever the API answers, fulfilled or rejected, when every fetch is
    answered before the next gesture the component is idle after each
    gesture: [pagination.loading] is [false] and the loading row of the data
    source is switched off, so the spinner never stays. *)
Theorem answered_session_settles
    (api : value -> promise result) (evs : list event) (s : state) :
  let s' := state_of (session api (Mount :: evs) s) in
  get "loading" (pagination s') = JBoolean false ∧
  ds s' = map PostRow (posts s') ++ [Loading (JBoolean false)].
Proof.
  intros s'.
  assert (settled_state s') as [Hl Hds].
  { subst s'. rewrite session_cons. cbn [state_of fst snd].
    apply session_settled_state, answered_settled_state. by left. }
  split; [|exact Hds]. unfold get. by rewrite Hl.
Qed.

(** A rejected fetch started by reaching the end of the list leaves an idle
    component exactly in the state it had, so reaching the end again asks
    for the same page again: this is the only retry there is. *)
Theorem rejected_fetch_restores (s : state) (e : error)
    (Hs : settled_state s) :
  state_of (run [EndReached; Settled (Rejected e)] s) = s ∧
  fetches (log_of (run [EndReached; Settled (Rejected e); EndReached] s))
  = fetches (log_of (_onEndReached s)) ++ fetches (log_of (_onEndReached s)).
Proof.
  assert (state_of (run [EndReached; Settled (Rejected e)] s) = s) as Hback.
  { destruct Hs as [Hl Hds].
    rewrite !run_cons, handle_EndReached, handle_Settled. cbn [run ret state_of fst snd].
    rewrite _getPosts_settled_Rejected, _getPostsFailure_eq. cbn [state_of fst snd].
    destruct (_onEndReached_cases s) as [-> | (_ & _ & ->)];
      cbn [state_of fst snd pagination posts].
    - rewrite (insert_id _ _ _ Hl), <- Hds. by destruct s.
    - rewrite insert_insert_eq, (insert_id _ _ _ Hl), <- Hds. by destruct s. }
  split; [exact Hback|].
  change [EndReached; Settled (Rejected e); EndReached]
    with ([EndReached; Settled (Rejected e)] ++ [EndReached]).
  rewrite log_of_run_app, fetches_app, Hback.
  rewrite !run_cons, !handle_EndReached, handle_Settled.
  cbn [run ret state_of log_of fst snd].
  rewrite !fetches_app, fetches_settled. cbn [fetches]. by rewrite !app_nil_r.
Qed.

Lemma rejected_fetch_restores_witness :
  let r1 := Result (page_info 1 10 10 22) (some_posts 1 10) in
  let s := state_of (run [Mount; Settled (Fulfilled r1)] constructor) in
  settled_state s ∧
  state_of (run [EndReached; Settled (Rejected "timeout"%string)] s) = s ∧
  fetches (log_of (run [EndReached; Settled (Rejected "timeout"%string); EndReached] s))
  = [JNumber 2; JNumber 2].
Proof.
  intros r1 s.
  assert (settled_state s) as Hs by (split; reflexivity).
  destruct (rejected_fetch_restores s "timeout"%string Hs) as [Hback Hf].
  split; [exact Hs|]. split; [exact Hback|]. rewrite Hf. reflexivity.
Defined.
